(** * Py-Downloader: the playlist conversion core of [downloader-pc-cli.py]

    A shallow embedding of the filename sanitizer, the media fetcher
    ([download_youtube]) and the playlist orchestrator
    ([convert_spotify_playlist]), with the properties the specification
    states about them.

    Python [str] values are sequences of Unicode code points; they are
    modelled as lists of code points ([list N]).  The external collaborators
    (the catalog client of spotipy, the file system, the yt-dlp sub-process)
    are an interface the development is parameterised over; every call the
    program makes to them is recorded in a trace. *)

From Stdlib Require Import List NArith ZArith Bool Lia Ascii String DecimalString.
Import ListNotations.

Set Implicit Arguments.

(** ** Python strings *)

Definition char := N.
Definition pystr := list char.

(** An ASCII literal as a Python string. *)
Definition str (s : string) : pystr := map N_of_ascii (list_ascii_of_string s).

Arguments str : simpl never.

(** [str(n)] for a non-negative integer: its decimal digits. *)
Definition str_of_nat (n : nat) : pystr := str (NilEmpty.string_of_uint (Nat.to_uint n)).

Definition char_eqb (a b : char) : bool := N.eqb a b.

Fixpoint startswith (prefix s : pystr) : bool :=
  match prefix, s with
  | [], _ => true
  | _ :: _, [] => false
  | a :: prefix', b :: s' => char_eqb a b && startswith prefix' s'
  end.

(** [sep.join(parts)] *)
Fixpoint join (sep : pystr) (parts : list pystr) : pystr :=
  match parts with
  | [] => []
  | [p] => p
  | p :: rest => p ++ sep ++ join sep rest
  end.

(** ** Filename Sanitizer *)

Module Sanitizer.

(** The character class of the pattern of [sanitize_filename], by code point:
    less-than 60, greater-than 62, colon 58, double quote 34, slash 47,
    backslash 92, vertical bar 124, question mark 63 and asterisk 42. *)
Definition reserved_chars : list char := [60; 62; 58; 34; 47; 92; 124; 63; 42]%N.

Definition is_reserved (c : char) : bool := existsb (char_eqb c) reserved_chars.

(** The replacement string, one underscore. *)
Definition placeholder : pystr := str "_".

(** [re.sub] with that class as the pattern and the placeholder as the
    replacement: the scan goes left to right; a character of the class is a
    match of length one and is replaced by the replacement string, any other
    character is copied. *)
Fixpoint sanitize_filename (name : pystr) : pystr :=
  match name with
  | [] => []
  | c :: rest =>
      (if is_reserved c then placeholder else [c]) ++ sanitize_filename rest
  end.

End Sanitizer.
Import Sanitizer.


(** ** Catalog data

    What the program reads of the objects the catalog returns: a playlist has
    a name and a first page of items; a page has its items and the cursor of
    the next page, null on the last one; an item holds a track or null (a
    track removed from the catalog); a track has a name and its artists.  The
    cursor is an opaque token: the program only tests whether it is there and
    hands the page back to the client. *)

Record Artist := { artist_name : pystr }.
Record Track := { track_name : pystr; track_artists : list Artist }.
Record PlaylistItem := { item_track : option Track }.
Record Paging (Cursor : Type) := { items : list PlaylistItem; next : option Cursor }.
Record Playlist (Cursor : Type) := { playlist_name : pystr; tracks : Paging Cursor }.

(** The [Download] section of the configuration, with the three keys the
    fetcher reads ([load_config] fills in each of them). *)
Record Config := {
  audio_quality : pystr;
  format : pystr;
  video_format : pystr
}.

(** ** Exceptions and external calls *)

Inductive exn := Exception (message : pystr).

Definition exn_str (e : exn) : pystr := let 'Exception m := e in m.

(** What [subprocess.run] returns. *)
Record CompletedProcess := { returncode : Z; stdout : pystr; stderr : pystr }.

(** The calls the program makes to its collaborators. *)
Inductive call (Cursor : Type) :=
| CatalogPlaylist (playlist_id : pystr)
| CatalogNext (page : Paging Cursor)
| MakeDirs (path : pystr)
| PathExists (path : pystr)
| RunProcess (command : list pystr).

Arguments CatalogPlaylist {Cursor}.
Arguments CatalogNext {Cursor}.
Arguments MakeDirs {Cursor}.
Arguments PathExists {Cursor}.
Arguments RunProcess {Cursor}.

(** The collaborators: the catalog client, the file system and the
    downloader process, acting on a world the program does not see into.
    - [os_path_join] is [os.path.join] on two components (it depends on the
      platform);
    - [os_path_exists] is [os.path.exists], which answers and raises nothing;
    - [os_makedirs] is [os.makedirs] with [exist_ok=True];
    - [spotify_playlist] and [spotify_next] are the methods [playlist] and
      [next] of the client;
    - [subprocess_run] is [subprocess.run] with both output streams captured
      as text.
    A call that can raise returns the exception on the left. *)
Class External (World Cursor : Type) := {
  os_path_join : pystr -> pystr -> pystr;
  os_path_exists : pystr -> World -> bool;
  os_makedirs : pystr -> World -> (exn + unit) * World;
  spotify_playlist : pystr -> World -> (exn + Playlist Cursor) * World;
  spotify_next : Paging Cursor -> World -> (exn + Paging Cursor) * World;
  subprocess_run : list pystr -> World -> (exn + CompletedProcess) * World
}.

(** ** The machine: world, trace of calls, console output *)

Record machine (World Cursor : Type) := {
  world : World;
  calls : list (call Cursor);
  console : list pystr
}.

(** A computation returns a value, raises, or does not return (the
    pagination loop ran out of fuel). *)
Inductive res (A : Type) :=
| Val (a : A)
| Raise (e : exn)
| Diverge.

Arguments Raise {A}.
Arguments Diverge {A}.

Definition M (World Cursor A : Type) := machine World Cursor -> res A * machine World Cursor.

Section Monad.
Context {World Cursor : Type}.

Definition ret {A} (a : A) : M World Cursor A := fun m => (Val a, m).

Definition bind {A B} (c : M World Cursor A) (k : A -> M World Cursor B) :
  M World Cursor B :=
  fun m =>
    match c m with
    | (Val a, m') => k a m'
    | (Raise e, m') => (Raise e, m')
    | (Diverge, m') => (Diverge, m')
    end.

(** [try: c  except Exception as e: h e] *)
Definition try_except {A} (c : M World Cursor A) (h : exn -> M World Cursor A) :
  M World Cursor A :=
  fun m =>
    match c m with
    | (Raise e, m') => h e m'
    | r => r
    end.

Definition diverge {A} : M World Cursor A := fun m => (Diverge, m).

End Monad.

Declare Scope py_scope.
Delimit Scope py_scope with py.
Notation "x <- c ;; k" := (bind c (fun x => k))
  (at level 61, c at next level, right associativity) : py_scope.
Notation "c ;; k" := (bind c (fun _ => k))
  (at level 61, right associativity) : py_scope.
Open Scope py_scope.

(** ** The program: pure parts *)

(** *** Console *)

Inductive level := info | success | error | warning.

Definition colors (l : level) : pystr :=
  match l with
  | info => str "magenta"
  | success => str "green"
  | error => str "red"
  | warning => str "orange1"
  end.

Definition icon (l : level) : pystr :=
  match l with
  | info => str "[*]"
  | success => str "[+]"
  | error => str "[x]"
  | warning => str "[!]"
  end.

(** The text [log] hands to [console.print]. *)
Definition log_line (message : pystr) (l : level) : pystr :=
  icon l ++ str " [bold " ++ colors l ++ str "]" ++ message ++ str "[/]".

(** *** Patterns *)

(** [re.match] of the pattern [^https?://]. *)
Definition is_url (query : pystr) : bool :=
  startswith (str "http://") query || startswith (str "https://") query.

(** The class [[a-zA-Z0-9]]. *)
Definition is_alnum (c : char) : bool :=
  ((97 <=? c) && (c <=? 122) || (65 <=? c) && (c <=? 90) || (48 <=? c) && (c <=? 57))%N.

Fixpoint takewhile (p : char -> bool) (s : pystr) : pystr :=
  match s with
  | [] => []
  | c :: rest => if p c then c :: takewhile p rest else []
  end.

(** The pattern [(?:playlist/|playlist:)([a-zA-Z0-9]+)] anchored at the start
    of [s]: one of the two prefixes (nine characters each), then the longest
    run of alphanumerics, which must not be empty; the result is group 1. *)
Definition match_playlist_at (s : pystr) : option pystr :=
  if startswith (str "playlist/") s || startswith (str "playlist:") s then
    match takewhile is_alnum (skipn 9 s) with
    | [] => None
    | playlist_id => Some playlist_id
    end
  else None.

(** [re.search] of that pattern: the leftmost position with a match. *)
Fixpoint re_search_playlist (url : pystr) : option pystr :=
  match match_playlist_at url with
  | Some playlist_id => Some playlist_id
  | None =>
      match url with
      | [] => None
      | _ :: rest => re_search_playlist rest
      end
  end.

(** *** Counters and per-track texts *)

(** The three counters of the loop, and the steps the progress bar of the
    playlist has advanced. *)
Record counters := {
  successful_downloads : nat;
  skipped_downloads : nat;
  failed_downloads : nat;
  advanced : nat
}.

Definition counters0 : counters :=
  {| successful_downloads := 0; skipped_downloads := 0; failed_downloads := 0;
     advanced := 0 |}.

Definition incr_successful (c : counters) : counters :=
  {| successful_downloads := successful_downloads c + 1;
     skipped_downloads := skipped_downloads c;
     failed_downloads := failed_downloads c;
     advanced := advanced c |}.

Definition incr_skipped (c : counters) : counters :=
  {| successful_downloads := successful_downloads c;
     skipped_downloads := skipped_downloads c + 1;
     failed_downloads := failed_downloads c;
     advanced := advanced c |}.

Definition incr_failed (c : counters) : counters :=
  {| successful_downloads := successful_downloads c;
     skipped_downloads := skipped_downloads c;
     failed_downloads := failed_downloads c + 1;
     advanced := advanced c |}.

(** [progress.advance(task)] *)
Definition advance (c : counters) : counters :=
  {| successful_downloads := successful_downloads c;
     skipped_downloads := skipped_downloads c;
     failed_downloads := failed_downloads c;
     advanced := advanced c + 1 |}.

(** The artists' names joined by a comma and a space, a dash, the title. *)
Definition track_query (track : Track) : pystr :=
  let title := track_name track in
  let artist := join (str ", ") (map artist_name (track_artists track)) in
  artist ++ str " - " ++ title.

(** The prefix of the per-track log lines: [i] of [total], in brackets. *)
Definition position (i total : nat) : pystr :=
  str "[" ++ str_of_nat i ++ str "/" ++ str_of_nat total ++ str "] ".

(** The check mark U+2713 and the ballot cross U+2717 of the log lines. *)
Definition check_mark : pystr := [10003%N].
Definition ballot_x : pystr := [10007%N].

Definition summary_text (c : counters) : pystr :=
  str "Download complete: " ++ str_of_nat (successful_downloads c) ++
  str " successful, " ++ str_of_nat (skipped_downloads c) ++
  str " skipped, " ++ str_of_nat (failed_downloads c) ++ str " failed".

(** The exit [convert_spotify_playlist] takes (it returns [None] on each):
    the early return on a reference that does not match, the handler of the
    enclosing [try], or the end of the body after the summary. *)
Inductive outcome :=
| InvalidUrl
| ConversionError (e : exn)
| Summary (c : counters).

(** ** The program: effects *)

Section Program.
Context {World Cursor : Type} {E : External World Cursor}.

(** The machine after lines were printed. *)
Definition after_print (m : machine World Cursor) (lines : list pystr) :
  machine World Cursor :=
  {| world := world m; calls := calls m; console := console m ++ lines |}.

Definition console_print (text : pystr) : M World Cursor unit :=
  fun m => (Val tt, after_print m [text]).

Definition log (message : pystr) (l : level) : M World Cursor unit :=
  console_print (log_line message l).

(** *** Calls to the collaborators, each recorded in the trace *)

(** The machine after call [c] left the world at [w]. *)
Definition record_call (c : call Cursor) (w : World) (m : machine World Cursor) :
  machine World Cursor :=
  {| world := w; calls := calls m ++ [c]; console := console m |}.

Definition lift_result {A} (c : call Cursor) (f : World -> (exn + A) * World) :
  M World Cursor A :=
  fun m =>
    match f (world m) with
    | (inl e, w) => (Raise e, record_call c w m)
    | (inr a, w) => (Val a, record_call c w m)
    end.

Definition path_exists (path : pystr) : M World Cursor bool :=
  fun m =>
    (Val (os_path_exists path (world m)), record_call (PathExists path) (world m) m).

Definition makedirs (path : pystr) : M World Cursor unit :=
  lift_result (MakeDirs path) (os_makedirs path).

Definition catalog_playlist (playlist_id : pystr) : M World Cursor (Playlist Cursor) :=
  lift_result (CatalogPlaylist playlist_id) (spotify_playlist playlist_id).

Definition catalog_next (page : Paging Cursor) : M World Cursor (Paging Cursor) :=
  lift_result (CatalogNext page) (spotify_next page).

Definition run_process (command : list pystr) : M World Cursor CompletedProcess :=
  lift_result (RunProcess command) (subprocess_run command).

(** *** Media Fetcher *)

(** The arguments of yt-dlp and the query it is given. *)
Definition download_command (query output_path : pystr) (is_video : bool)
    (config : Config) : list pystr :=
  let output_template := os_path_join output_path (str "%(title)s.%(ext)s") in
  let command := [str "yt-dlp"; str "-o"; output_template; str "--no-warnings"] in
  let '(command, query) :=
    if is_video then
      (command ++ [str "-f"; str "bestvideo[ext=mp4]+bestaudio[ext=m4a]/best";
                   str "--merge-output-format"; video_format config],
       if is_url query then query
       else str "ytsearch1:" ++ query ++ str " official video")
    else
      (command ++ [str "-x"; str "--audio-format"; format config;
                   str "--audio-quality"; audio_quality config;
                   str "--embed-thumbnail"; str "--add-metadata";
                   str "--embed-metadata"; str "--prefer-ffmpeg"],
       if is_url query then query
       else str "ytsearch1:" ++ query ++ str " official audio") in
  command ++ [query].

(** [download_youtube(query, output_path, is_video, config)], with a
    configuration given (the conversion always passes one).  The progress
    display around the sub-process is not modelled. *)
Definition download_youtube (query output_path : pystr) (is_video : bool)
    (config : Config) : M World Cursor bool :=
  let command := download_command query output_path is_video config in
  try_except
    (result <- run_process command ;;
     if (returncode result =? 0)%Z then ret true
     else
       log (str "Download failed: " ++ stderr result) error ;;
       ret false)
    (fun e =>
       log (str "Download error: " ++ exn_str e) error ;;
       ret false).

(** *** Playlist Orchestrator *)

(** The loop [while playlist["tracks"]["next"]].  [fuel] bounds the number of
    iterations; the loop itself has no bound. *)
Fixpoint fetch_all_pages (fuel : nat) (acc : list PlaylistItem) (page : Paging Cursor) :
  M World Cursor (list PlaylistItem) :=
  match next page with
  | None => ret acc
  | Some _ =>
      match fuel with
      | O => diverge
      | S fuel' =>
          page' <- catalog_next page ;;
          fetch_all_pages fuel' (acc ++ items page') page'
      end
  end.

(** The path whose existence decides the skip. *)
Definition expected_filename (full_path : pystr) (track : Track) : pystr :=
  os_path_join full_path (sanitize_filename (track_query track ++ str ".mp3")).

(** One iteration of the loop [for i, item in enumerate(tracks, 1)]. *)
Definition process_item (full_path : pystr) (config : Config) (total i : nat)
    (item : PlaylistItem) (c : counters) : M World Cursor counters :=
  match item_track item with
  | None => ret c
  | Some track =>
      let query := track_query track in
      let filename := expected_filename full_path track in
      found <- path_exists filename ;;
      if found then
        log (position i total ++ str "Skipping (exists): " ++ query) warning ;;
        ret (advance (incr_skipped c))
      else
        log (position i total ++ str "Downloading: " ++ query) info ;;
        ok <- download_youtube query full_path false config ;;
        c' <- (if ok then
                 log (position i total ++ check_mark ++ str " Downloaded: " ++ query)
                     success ;;
                 ret (incr_successful c)
               else
                 log (position i total ++ ballot_x ++ str " Failed: " ++ query)
                     error ;;
                 ret (incr_failed c)) ;;
        ret (advance c')
  end.

Fixpoint process_tracks (full_path : pystr) (config : Config) (total i : nat)
    (items : list PlaylistItem) (c : counters) : M World Cursor counters :=
  match items with
  | [] => ret c
  | item :: rest =>
      c' <- process_item full_path config total i item c ;;
      process_tracks full_path config total (S i) rest c'
  end.

(** [convert_spotify_playlist(spotify, url, output_dir, config)]; the client
    [spotify] is the catalog part of the collaborators. *)
Definition convert_spotify_playlist (fuel : nat) (url output_dir : pystr)
    (config : Config) : M World Cursor outcome :=
  match re_search_playlist url with
  | None =>
      log (str "Invalid Spotify playlist URL") error ;;
      ret InvalidUrl
  | Some playlist_id =>
      try_except
        (playlist <- catalog_playlist playlist_id ;;
         let name := sanitize_filename (playlist_name playlist) in
         let full_path := os_path_join output_dir name in
         makedirs full_path ;;
         log (str "Playlist: " ++ name) info ;;
         log (str "Output directory: " ++ full_path) info ;;
         all_tracks <-
           fetch_all_pages fuel (items (tracks playlist)) (tracks playlist) ;;
         log (str "Found " ++ str_of_nat (List.length all_tracks) ++ str " tracks in playlist")
             info ;;
         c <- process_tracks full_path config (List.length all_tracks) 1 all_tracks counters0 ;;
         log (summary_text c) info ;;
         ret (Summary c))
        (fun e =>
           log (str "Error converting playlist: " ++ exn_str e) error ;;
           ret (ConversionError e))
  end.

End Program.

(** ** Specification-side definitions *)

(** The reference patterns as the specification words them: somewhere in the
    reference stands [playlist/] or [playlist:] followed by an identifier, a
    run of at least one alphanumeric character. *)
Definition recognized_reference (url : pystr) : Prop :=
  exists before playlist_id rest,
    (url = before ++ str "playlist/" ++ playlist_id ++ rest \/
     url = before ++ str "playlist:" ++ playlist_id ++ rest) /\
    playlist_id <> [] /\
    forallb is_alnum playlist_id = true.

(** The pages of a playlist as the catalog serves them from world [w]: the
    page after [page] is the client's answer to [spotify.next(page)], and the
    last page is the first one whose cursor is null. *)
Inductive pages_from {World Cursor : Type} {E : External World Cursor} :
  World -> Paging Cursor -> list (Paging Cursor) -> World -> Prop :=
| pages_last : forall w page,
    next page = None ->
    pages_from w page [] w
| pages_more : forall w page cursor page' w' rest w'',
    next page = Some cursor ->
    spotify_next page w = (inr page', w') ->
    pages_from w' page' rest w'' ->
    pages_from w page (page' :: rest) w''.

(** The entries of a track list that hold a track. *)
Definition non_null_tracks (items : list PlaylistItem) : nat :=
  List.length (filter (fun item => match item_track item with Some _ => true | None => false end) items).

Definition outcomes_total (c : counters) : nat :=
  successful_downloads c + skipped_downloads c + failed_downloads c.


(** ** A small world to run the program in

    A file system that is a list of paths, with POSIX path joining; a catalog
    that knows one playlist, Road Trip, served in two pages with a removed
    track on the first; a downloader that finds nothing for one of the
    tracks. *)

Module Demo.

Definition World := list pystr.
Definition Cursor := nat.

Fixpoint pystr_eqb (a b : pystr) : bool :=
  match a, b with
  | [], [] => true
  | x :: a', y :: b' => char_eqb x y && pystr_eqb a' b'
  | _, _ => false
  end.

Definition endswith_sep (a : pystr) : bool :=
  match rev a with
  | c :: _ => char_eqb c 47%N
  | [] => false
  end.

(** [posixpath.join] of two components. *)
Definition posix_join (a b : pystr) : pystr :=
  if startswith (str "/") b then b
  else
    match a with
    | [] => b
    | _ => if endswith_sep a then a ++ b else a ++ str "/" ++ b
    end.

Definition song_one : Track :=
  {| track_name := str "Song One"; track_artists := [{| artist_name := str "Artist A" |}] |}.

Definition song_two : Track :=
  {| track_name := str "Song Two"; track_artists := [{| artist_name := str "Artist B" |}] |}.

Definition page2 : Paging Cursor :=
  {| items := [{| item_track := Some song_two |}]; next := None |}.

Definition page1 : Paging Cursor :=
  {| items := [{| item_track := Some song_one |}; {| item_track := None |}];
     next := Some 1 |}.

Definition road_trip : Playlist Cursor :=
  {| playlist_name := str "Road Trip"; tracks := page1 |}.

Definition playlist_id : pystr := str "37i9dQZF1DXcBWIGoYBM5M".

(** A second playlist, with no tracks. *)
Definition quiet : Playlist Cursor :=
  {| playlist_name := str "Quiet"; tracks := {| items := []; next := None |} |}.

Definition quiet_id : pystr := str "0qu1et0".

Definition no_results : CompletedProcess :=
  {| returncode := 1; stdout := []; stderr := str "ERROR: no results" |}.

Definition done : CompletedProcess :=
  {| returncode := 0; stdout := []; stderr := [] |}.

#[export] Instance demo : External World Cursor := {
  os_path_join := posix_join;
  os_path_exists path w := existsb (pystr_eqb path) w;
  os_makedirs path w := (inr tt, path :: w);
  spotify_playlist id_ w :=
    if pystr_eqb id_ playlist_id then (inr road_trip, w)
    else if pystr_eqb id_ quiet_id then (inr quiet, w)
    else (inl (Exception (str "http status: 404")), w);
  spotify_next page w :=
    match next page with
    | Some 1 => (inr page2, w)
    | _ => (inl (Exception (str "http status: 400")), w)
    end;
  subprocess_run command w :=
    if pystr_eqb (last command []) (str "ytsearch1:Artist B - Song Two official audio")
    then (inr no_results, w)
    else (inr done, w)
}.

Definition config : Config :=
  {| audio_quality := str "192K"; format := str "mp3"; video_format := str "mp4" |}.

Definition start (w : World) : machine World Cursor :=
  {| world := w; calls := []; console := [] |}.

Definition url : pystr := str "https://open.spotify.com/playlist/37i9dQZF1DXcBWIGoYBM5M?si=abc".

Definition full_path : pystr := str "/music/Road Trip".

Definition song_one_file : pystr := str "/music/Road Trip/Artist A - Song One.mp3".

Definition album_url : pystr := str "https://open.spotify.com/album/4aawyAB9vmqN3uQ7FjRGTy".

(** The run of the conversion of Road Trip into an empty [/music]. *)
Definition road_trip_counters : counters :=
  {| successful_downloads := 1; skipped_downloads := 0; failed_downloads := 1;
     advanced := 2 |}.

Definition road_trip_end : machine World Cursor :=
  snd (convert_spotify_playlist 5 url (str "/music") config (start [])).

End Demo.

(** ** Observations on traces *)




(** Two characters the sanitizer does not tell apart: equal, or both among
    the reserved characters and the underscore. *)
Definition same_after_sanitize (a b : char) : Prop :=
  a = b \/ (In a (95%N :: reserved_chars) /\ In b (95%N :: reserved_chars)).

(** The end of an identifier: the end of the text, or a character that is
    not alphanumeric. *)
Definition ends_run (rest : pystr) : Prop :=
  match rest with
  | [] => True
  | c :: _ => is_alnum c = false
  end.

(** ** Start-up checks, credentials and single downloads *)

Fixpoint str_eqb (a b : pystr) : bool :=
  match a, b with
  | [], [] => true
  | x :: a', y :: b' => char_eqb x y && str_eqb a' b'
  | _, _ => false
  end.

(** The configuration object as the program reads it: [config[section][key]]
    gives a value or raises (a missing section or key is a [KeyError]). *)
Definition ConfigParser := pystr -> pystr -> exn + pystr.

(** How [subprocess.run(command, check=True, capture_output=True)] ends: it
    returns, or raises one of the two exceptions the program expects, or
    raises something else. *)
Inductive probe_result :=
| ProbeDone
| FileNotFoundError
| CalledProcessError
| ProbeRaised (e : exn).

(** How [import spotipy] ends. *)
Inductive import_result :=
| Imported
| ImportError
| ImportRaised (e : exn).

Definition probe_ok (r : probe_result) : bool :=
  match r with
  | ProbeDone => true
  | _ => false
  end.

Definition import_ok (r : import_result) : bool :=
  match r with
  | Imported => true
  | _ => false
  end.

(** The collaborators of the start-up and single-download code:
    - [spotify_connect client_id client_secret] builds the credentials
      manager and the client on it ([SpotifyClientCredentials], then
      [spotipy.Spotify]);
    - [subprocess_check] is [subprocess.run] with [check=True];
    - [import_spotipy] is the statement [import spotipy];
    - [input_] is the builtin [input];
    - [str_strip] and [str_lower] are the string methods [strip] and
      [lower]. *)
Class Host (World Client : Type) := {
  spotify_connect : pystr -> pystr -> World -> (exn + Client) * World;
  subprocess_check : list pystr -> World -> probe_result * World;
  import_spotipy : World -> import_result * World;
  input_ : pystr -> World -> (exn + pystr) * World;
  str_strip : pystr -> pystr;
  str_lower : pystr -> pystr
}.

Section Startup.
Context {World Cursor Client : Type} {E : External World Cursor} {H : Host World Client}.

(** The machine with the world replaced. *)
Definition with_world (w : World) (m : machine World Cursor) : machine World Cursor :=
  {| world := w; calls := calls m; console := console m |}.

(** [config[section][key]] *)
Definition config_get (config : ConfigParser) (section key : pystr) : M World Cursor pystr :=
  fun m =>
    match config section key with
    | inl e => (Raise e, m)
    | inr value => (Val value, m)
    end.

Definition connect (client_id client_secret : pystr) : M World Cursor Client :=
  fun m =>
    match spotify_connect client_id client_secret (world m) with
    | (inl e, w) => (Raise e, with_world w m)
    | (inr client, w) => (Val client, with_world w m)
    end.

Definition input (prompt : pystr) : M World Cursor pystr :=
  fun m =>
    match input_ prompt (world m) with
    | (inl e, w) => (Raise e, with_world w m)
    | (inr answer, w) => (Val answer, with_world w m)
    end.

(** *** [initialize_spotify_client] *)

Definition is_empty (s : pystr) : bool :=
  match s with
  | [] => true
  | _ :: _ => false
  end.

(** The client, or [None]. *)
Definition initialize_spotify_client (config : ConfigParser) :
  M World Cursor (option Client) :=
  try_except
    (cid <- config_get config (str "Spotify") (str "client_id") ;;
     secret <- config_get config (str "Spotify") (str "client_secret") ;;
     if is_empty cid || is_empty secret then
       log (str "Spotify API credentials not set. Configure them first.") error ;;
       ret None
     else
       client <- connect cid secret ;;
       ret (Some client))
    (fun e =>
       log (str "Spotify client error: " ++ exn_str e) error ;;
       ret None).

(** *** [check_dependencies] *)

(** One [try] around a run with [check=True]: true when the run returned,
    false when it raised [FileNotFoundError] or [CalledProcessError]; any
    other exception goes on. *)
Definition probe (command : list pystr) : M World Cursor bool :=
  fun m =>
    match subprocess_check command (world m) with
    | (ProbeRaised e, w) => (Raise e, record_call (RunProcess command) w m)
    | (r, w) => (Val (probe_ok r), record_call (RunProcess command) w m)
    end.

Definition try_import : M World Cursor bool :=
  fun m =>
    match import_spotipy (world m) with
    | (ImportRaised e, w) => (Raise e, with_world w m)
    | (r, w) => (Val (import_ok r), with_world w m)
    end.

Definition missing_header : pystr := [10%N] ++ str "[red][x] Missing dependencies:[/]".

Definition missing_yt_dlp : pystr :=
  str "    " ++ [8226%N] ++
  str " yt-dlp: Download and install from https://github.com/yt-dlp/yt-dlp".

Definition missing_spotipy : pystr :=
  str "    " ++ [8226%N] ++ str " spotipy: Run: pip install spotipy".

(** The loop [for dep in missing_deps]. *)
Fixpoint print_missing (missing_deps : list pystr) : M World Cursor unit :=
  match missing_deps with
  | [] => ret tt
  | dep :: rest =>
      (if str_eqb dep (str "yt-dlp") then console_print missing_yt_dlp
       else if str_eqb dep (str "spotipy") then console_print missing_spotipy
       else ret tt) ;;
      print_missing rest
  end.

Definition check_dependencies : M World Cursor bool :=
  let missing_deps : list pystr := [] in
  found <- probe [str "yt-dlp"; str "--version"] ;;
  let missing_deps := if found then missing_deps else missing_deps ++ [str "yt-dlp"] in
  found <- probe [str "ffmpeg"; str "-version"] ;;
  (if found then ret tt
   else log (str "FFmpeg not found - some features may not work properly") warning) ;;
  found <- try_import ;;
  let missing_deps := if found then missing_deps else missing_deps ++ [str "spotipy"] in
  match missing_deps with
  | [] => ret true
  | _ :: _ =>
      console_print missing_header ;;
      print_missing missing_deps ;;
      ret false
  end.

(** *** [download_single] *)

(** [download_youtube] on the configuration object: its reads of the
    [Download] section come before anything else and are outside its [try],
    so a missing key raises out of it.  Video mode reads [video_format]
    only, audio mode [format] and then [audio_quality]. *)
Definition download_youtube_from (query output_path : pystr) (is_video : bool)
    (config : ConfigParser) : M World Cursor bool :=
  if is_video then
    value <- config_get config (str "Download") (str "video_format") ;;
    download_youtube query output_path true
      {| audio_quality := []; format := []; video_format := value |}
  else
    audio_format <- config_get config (str "Download") (str "format") ;;
    quality <- config_get config (str "Download") (str "audio_quality") ;;
    download_youtube query output_path false
      {| audio_quality := quality; format := audio_format; video_format := [] |}.

Definition download_single (config : ConfigParser) : M World Cursor unit :=
  answer <- input (str "Enter YouTube URL or search query: ") ;;
  let url := str_strip answer in
  if is_empty url then log (str "No input provided") error
  else
    answer <- input (str "Download as (m)usic or (v)ideo? [m/v]: ") ;;
    let vtype := str_strip (str_lower answer) in
    let is_video := str_eqb vtype (str "v") in
    output_path <- config_get config (str "Settings") (str "output_path") ;;
    makedirs output_path ;;
    ok <- download_youtube_from url output_path is_video config ;;
    if ok then log (str "Download completed successfully!") success
    else log (str "Download failed!") error.

End Startup.

(** ** A catalog that never ends

    Every page it serves has a cursor. *)

Module Endless.

Definition page : Paging unit := {| items := [{| item_track := None |}]; next := Some tt |}.

#[export] Instance endless : External unit unit := {
  os_path_join a b := a ++ str "/" ++ b;
  os_path_exists _ _ := false;
  os_makedirs _ w := (inr tt, w);
  spotify_playlist _ w := (inr {| playlist_name := str "Loop"; tracks := page |}, w);
  spotify_next _ w := (inr page, w);
  subprocess_run _ w := (inr {| returncode := 0; stdout := []; stderr := [] |}, w)
}.

End Endless.

(** ** A desk: files, installed programs and a keyboard

    A world with a file system, the names of the programs and packages that
    are installed, and the lines the user is going to type. *)

Module Desk.

Record World := {
  files : list pystr;
  installed : list pystr;
  keyboard : list pystr
}.

Definition with_files (paths : list pystr) (w : World) : World :=
  {| files := paths; installed := installed w; keyboard := keyboard w |}.

Definition with_keyboard (lines : list pystr) (w : World) : World :=
  {| files := files w; installed := installed w; keyboard := lines |}.

Definition has (name : pystr) (names : list pystr) : bool := existsb (str_eqb name) names.

Definition exit0 : CompletedProcess := {| returncode := 0; stdout := []; stderr := [] |}.

Definition exit1 : CompletedProcess :=
  {| returncode := 1; stdout := []; stderr := str "ERROR: no results" |}.

#[export] Instance desk : External World unit := {
  os_path_join a b := a ++ str "/" ++ b;
  os_path_exists path w := has path (files w);
  os_makedirs path w := (inr tt, with_files (path :: files w) w);
  spotify_playlist _ w := (inl (Exception (str "http status: 404")), w);
  spotify_next _ w := (inl (Exception (str "http status: 400")), w);
  subprocess_run command w :=
    if has (hd [] command) (installed w) then
      if str_eqb (last command []) (str "ytsearch1:nothing official audio")
      then (inr exit1, w) else (inr exit0, w)
    else (inl (Exception (str "[Errno 2] No such file or directory")), w)
}.

(** Leading and trailing spaces removed; this is [strip] on the lines typed
    here, which hold no other white space. *)
Fixpoint lstrip_spaces (s : pystr) : pystr :=
  match s with
  | c :: rest => if char_eqb c 32%N then lstrip_spaces rest else s
  | [] => []
  end.

Definition strip_spaces (s : pystr) : pystr := rev (lstrip_spaces (rev (lstrip_spaces s))).

(** The letters A to Z lowered; this is [lower] on ASCII text. *)
Definition lower_ascii (s : pystr) : pystr :=
  map (fun c => if ((65 <=? c) && (c <=? 90))%N then (c + 32)%N else c) s.

#[export] Instance host : Host World unit := {
  spotify_connect _ _ w := (inr tt, w);
  subprocess_check command w :=
    if has (hd [] command) (installed w) then (ProbeDone, w) else (FileNotFoundError, w);
  import_spotipy w :=
    if has (str "spotipy") (installed w) then (Imported, w) else (ImportError, w);
  input_ _ w :=
    match keyboard w with
    | line :: rest => (inr line, with_keyboard rest w)
    | [] => (inl (Exception (str "EOF when reading a line")), w)
    end;
  str_strip := strip_spaces;
  str_lower := lower_ascii
}.

Definition start (w : World) : machine World unit :=
  {| world := w; calls := []; console := [] |}.

(** A configuration with every key and no credentials. *)
Definition defaults : ConfigParser :=
  fun section key =>
    if str_eqb section (str "Spotify") then
      if str_eqb key (str "client_id") || str_eqb key (str "client_secret") then inr []
      else inl (Exception key)
    else if str_eqb section (str "Settings") then
      if str_eqb key (str "output_path") then inr (str "/music") else inl (Exception key)
    else if str_eqb section (str "Download") then
      if str_eqb key (str "audio_quality") then inr (str "192K")
      else if str_eqb key (str "format") then inr (str "mp3")
      else if str_eqb key (str "video_format") then inr (str "mp4")
      else inl (Exception key)
    else inl (Exception section).

(** The same with credentials. *)
Definition configured : ConfigParser :=
  fun section key =>
    if str_eqb section (str "Spotify") then
      if str_eqb key (str "client_id") then inr (str "0123abcd")
      else if str_eqb key (str "client_secret") then inr (str "s3cr3t")
      else inl (Exception key)
    else defaults section key.

Definition bare : World :=
  {| files := []; installed := [str "spotipy"]; keyboard := [] |}.

Definition ready (lines : list pystr) : World :=
  {| files := []; installed := [str "yt-dlp"; str "ffmpeg"; str "spotipy"];
     keyboard := lines |}.

End Desk.

(** * Properties *)

(** ** Filename Sanitizer *)

Section SanitizerFacts.

Lemma is_reserved_In (c : char) : is_reserved c = true <-> In c reserved_chars.
Proof.
  unfold is_reserved. rewrite existsb_exists. split.
  - intros [x [Hin Heq]]. apply N.eqb_eq in Heq. now subst.
  - intros Hin. exists c. split; [assumption | apply N.eqb_refl].
Qed.

Lemma is_reserved_not_In (c : char) : is_reserved c = false <-> ~ In c reserved_chars.
Proof.
  rewrite <- is_reserved_In. destruct (is_reserved c); split; congruence.
Qed.

Lemma placeholder_not_reserved : forallb (fun c => negb (is_reserved c)) placeholder = true.
Proof. reflexivity. Qed.

Lemma sanitize_filename_cons (c : char) (rest : pystr) :
  sanitize_filename (c :: rest) =
  (if is_reserved c then 95%N else c) :: sanitize_filename rest.
Proof. simpl. now destruct (is_reserved c). Qed.

Lemma sanitize_filename_app (a b : pystr) :
  sanitize_filename (a ++ b) = sanitize_filename a ++ sanitize_filename b.
Proof.
  induction a as [|c a IH]; [reflexivity|].
  rewrite <- app_comm_cons, !sanitize_filename_cons, IH. reflexivity.
Qed.

Lemma sanitize_filename_length (name : pystr) :
  List.length (sanitize_filename name) = List.length name.
Proof.
  induction name as [|c rest IH]; [reflexivity|].
  rewrite sanitize_filename_cons. simpl. now rewrite IH.
Qed.

Lemma sanitize_filename_nth_error (name : pystr) (i : nat) :
  nth_error (sanitize_filename name) i =
  option_map (fun c => if is_reserved c then 95%N else c) (nth_error name i).
Proof.
  revert i. induction name as [|c rest IH]; intros [|i]; try reflexivity.
  - now rewrite sanitize_filename_cons.
  - rewrite sanitize_filename_cons. simpl. apply IH.
Qed.

Lemma sanitize_filename_clean (name : pystr) :
  Forall (fun c => is_reserved c = false) (sanitize_filename name).
Proof.
  induction name as [|c rest IH]; [constructor|].
  rewrite sanitize_filename_cons. constructor; [|assumption].
  destruct (is_reserved c) eqn:Hc; [reflexivity | assumption].
Qed.

Lemma sanitize_filename_fixed (name : pystr) :
  Forall (fun c => is_reserved c = false) name -> sanitize_filename name = name.
Proof.
  induction 1 as [|c rest Hc _ IH]; [reflexivity|].
  rewrite sanitize_filename_cons, Hc, IH. reflexivity.
Qed.

End SanitizerFacts.

(** C7: [sanitize_filename] is a total function; its output has the length of
    its input and holds no reserved character; at every position a reserved
    character of the input has become one underscore, and any other
    character is the input's character at that position. *)
Theorem sanitize_filename_spec (name : pystr) :
  exists out,
    sanitize_filename name = out /\
    List.length out = List.length name /\
    Forall (fun c => ~ In c reserved_chars) out /\
    (forall i c, nth_error name i = Some c -> In c reserved_chars ->
                 nth_error out i = Some 95%N) /\
    (forall i c, nth_error name i = Some c -> ~ In c reserved_chars ->
                 nth_error out i = Some c).
Proof.
  exists (sanitize_filename name). split; [reflexivity|].
  split; [apply sanitize_filename_length|].
  split.
  - eapply Forall_impl; [|apply sanitize_filename_clean].
    intros c Hc. now apply is_reserved_not_In.
  - split; intros i c Hi Hc; rewrite sanitize_filename_nth_error, Hi; simpl.
    + apply is_reserved_In in Hc. now rewrite Hc.
    + apply is_reserved_not_In in Hc. now rewrite Hc.
Qed.

(** C8: sanitizing twice is sanitizing once. *)
Theorem sanitize_filename_idempotent (x : pystr) :
  sanitize_filename (sanitize_filename x) = sanitize_filename x.
Proof. apply sanitize_filename_fixed, sanitize_filename_clean. Qed.

(** C10: [sanitize_filename] distributes over concatenation. *)
Theorem sanitize_filename_distributes (a b : pystr) :
  sanitize_filename (a ++ b) = sanitize_filename a ++ sanitize_filename b.
Proof.
  induction a as [|c a IH]; simpl; [reflexivity|].
  now rewrite IH, app_assoc.
Qed.

Example sanitize_acdc :
  sanitize_filename (str "AC/DC - Who Made Who?.mp3") = str "AC_DC - Who Made Who_.mp3".
Proof. reflexivity. Qed.

Example sanitize_keeps_unicode :
  sanitize_filename [66; 106; 246; 114; 107; 58; 32; 26085; 26412]%N =
  [66; 106; 246; 114; 107; 95; 32; 26085; 26412]%N.
Proof. reflexivity. Qed.

Example str_of_nat_digits : str_of_nat 12 = str "12" /\ str_of_nat 0 = str "0".
Proof. split; reflexivity. Qed.

(** ** Media Fetcher and per-track step *)

Section TrackFacts.
Context {World Cursor : Type} {E : External World Cursor}.

Implicit Types (m : machine World Cursor) (c : counters) (track : Track).






(** Whatever the process does, the fetcher returns a boolean: it raises
    nothing. *)
Lemma download_youtube_returns query output_path is_video config m :
  exists ok m', download_youtube query output_path is_video config m = (Val ok, m').
Proof.
  unfold download_youtube, try_except, bind, run_process, lift_result.
  destruct (subprocess_run _ (world m)) as [[e|result] w].
  - unfold log, console_print, ret. eauto.
  - destruct (returncode result =? 0)%Z; unfold log, console_print, ret; eauto.
Qed.

(** Every invocation of the fetcher runs the downloader process once. *)
Lemma download_youtube_calls query output_path is_video config m :
  exists ok m',
    download_youtube query output_path is_video config m = (Val ok, m') /\
    calls m' = calls m ++ [RunProcess (download_command query output_path is_video config)].
Proof.
  unfold download_youtube, try_except, bind, run_process, lift_result.
  destruct (subprocess_run _ (world m)) as [[e|result] w].
  - unfold log, console_print, ret. eauto.
  - destruct (returncode result =? 0)%Z; unfold log, console_print, ret; eauto.
Qed.

(** The step on a track whose file is there. *)
Lemma existing_file_probe full_path config total i track c m :
  os_path_exists (expected_filename full_path track) (world m) = true ->
  exists m',
    process_item full_path config total i {| item_track := Some track |} c m
      = (Val (advance (incr_skipped c)), m') /\
    calls m' = calls m ++ [PathExists (expected_filename full_path track)].
Proof.
  intros Hexists. unfold process_item. cbn [item_track].
  unfold bind at 1. unfold path_exists. rewrite Hexists.
  eexists. split; reflexivity.
Qed.

(** One iteration returns, and it counts one outcome for a track and none
    for a null entry. *)
Lemma process_item_returns full_path config total i item c m :
  exists c' m',
    process_item full_path config total i item c m = (Val c', m') /\
    outcomes_total c' = outcomes_total c + non_null_tracks [item] /\
    advanced c' = advanced c + non_null_tracks [item].
Proof.
  unfold process_item, non_null_tracks. simpl.
  destruct (item_track item) as [track|]; simpl.
  - unfold bind at 1. unfold path_exists.
    destruct (os_path_exists _ (world m)).
    + eexists _, _. split; [reflexivity|]. unfold outcomes_total; simpl. lia.
    + unfold bind at 1. unfold log at 1, console_print. unfold bind at 1.
      match goal with
      | |- context [download_youtube ?q ?p ?v ?cf ?mm] =>
          destruct (download_youtube_returns q p v cf mm) as [ok [m1 Hdl]]; rewrite Hdl
      end.
      destruct ok; eexists _, _; (split; [reflexivity|]); unfold outcomes_total; simpl; lia.
  - eexists _, _. split; [reflexivity|]. unfold outcomes_total. lia.
Qed.

(** The loop over the tracks returns: no iteration raises. *)
Lemma process_tracks_returns full_path config total items i c m :
  exists c' m',
    process_tracks full_path config total i items c m = (Val c', m') /\
    outcomes_total c' = outcomes_total c + non_null_tracks items /\
    advanced c' = advanced c + non_null_tracks items.
Proof.
  revert i c m. induction items as [|item rest IH]; intros i c m.
  - exists c, m. unfold non_null_tracks; simpl. repeat split; lia.
  - destruct (process_item_returns full_path config total i item c m)
      as [c1 [m1 [Hstep [Hsum Hadv]]]].
    destruct (IH (S i) c1 m1) as [c2 [m2 [Hrest [Hsum' Hadv']]]].
    exists c2, m2. split.
    + simpl. unfold bind. rewrite Hstep. exact Hrest.
    + unfold non_null_tracks in *. simpl in *.
      destruct (item_track item); simpl in *; lia.
Qed.

(** Running the loop over [done ++ todo] is running it over [done] and then,
    from the counters and the machine reached, over [todo]. *)
Lemma process_tracks_app full_path config total done todo i c m c1 m1 :
  process_tracks full_path config total i done c m = (Val c1, m1) ->
  process_tracks full_path config total i (done ++ todo) c m =
  process_tracks full_path config total (i + List.length done) todo c1 m1.
Proof.
  revert i c m. induction done as [|item rest IH]; intros i c m H.
  - simpl in H. unfold ret in H. injection H as <- <-.
    simpl. now rewrite Nat.add_0_r.
  - simpl in *. unfold bind in *.
    destruct (process_item full_path config total i item c m) as [[c'| |] m'];
      try discriminate.
    rewrite (IH _ _ _ H). f_equal. lia.
Qed.


(** C3: the path the step checks is the join of the playlist directory with
    the sanitized query followed by the suffix [.mp3], the query being the
    artists joined by a comma and a space, a dash, and the title. *)
Theorem expected_filename_sanitized_query_mp3 full_path config total i track c m :
  track_query track =
    join (str ", ") (map artist_name (track_artists track)) ++ str " - " ++ track_name track /\
  sanitize_filename (track_query track ++ str ".mp3") =
    sanitize_filename (track_query track) ++ str ".mp3" /\
  expected_filename full_path track =
    os_path_join full_path (sanitize_filename (track_query track) ++ str ".mp3") /\
  exists more,
    calls (snd (process_item full_path config total i {| item_track := Some track |} c m))
    = calls m ++
      PathExists (os_path_join full_path (sanitize_filename (track_query track) ++ str ".mp3"))
      :: more.
Proof.
  assert (Hsuffix : sanitize_filename (track_query track ++ str ".mp3") =
                    sanitize_filename (track_query track) ++ str ".mp3")
    by (rewrite sanitize_filename_app; reflexivity).
  split; [reflexivity|]. split; [exact Hsuffix|].
  split; [unfold expected_filename; now rewrite Hsuffix|].
  rewrite <- Hsuffix. fold (expected_filename full_path track).
  destruct (os_path_exists (expected_filename full_path track) (world m)) eqn:Hex.
  - destruct (existing_file_probe full_path config total i track c m Hex) as [m' [Hrun Hcalls]].
    rewrite Hrun. exists []. exact Hcalls.
  - unfold process_item. cbn [item_track].
    unfold bind at 1. unfold path_exists. rewrite Hex.
    unfold bind at 1. unfold log at 1, console_print. unfold bind at 1.
    match goal with
    | |- context [download_youtube ?q ?p ?v ?cf ?mm] =>
        destruct (download_youtube_calls q p v cf mm) as [ok [m1 [Hdl Hcalls]]]; rewrite Hdl
    end.
    exists [RunProcess (download_command (track_query track) full_path false config)].
    destruct ok; cbn; rewrite Hcalls; cbn; now rewrite <- app_assoc.
Qed.

(** C4: a null entry is passed over: the counters and the machine (world,
    calls, console) are what they were, and the loop goes on with the rest. *)
Theorem null_track_changes_nothing full_path config total i rest c m :
  process_item full_path config total i {| item_track := None |} c m = (Val c, m) /\
  process_tracks full_path config total i ({| item_track := None |} :: rest) c m =
  process_tracks full_path config total (S i) rest c m.
Proof. split; reflexivity. Qed.

End TrackFacts.

(** ** Reference patterns *)

Section ReferenceFacts.

Lemma startswith_app (prefix s : pystr) :
  startswith prefix s = true <-> exists rest, s = prefix ++ rest.
Proof.
  revert s. induction prefix as [|a prefix IH]; intros s.
  - split; [intros _; now exists s | reflexivity].
  - destruct s as [|b s]; simpl.
    + split; [discriminate | intros [rest H]; discriminate].
    + rewrite andb_true_iff, IH. unfold char_eqb. rewrite N.eqb_eq. split.
      * intros [-> [rest ->]]. now exists rest.
      * intros [rest H]. injection H as -> ->. split; [reflexivity | now exists rest].
Qed.

Lemma takewhile_split (p : char -> bool) (s : pystr) :
  forallb p (takewhile p s) = true /\ exists rest, s = takewhile p s ++ rest.
Proof.
  induction s as [|c s [IHall [rest IHrest]]]; simpl.
  - split; [reflexivity | now exists []].
  - destruct (p c) eqn:Hc; simpl.
    + rewrite Hc, IHall. split; [reflexivity|]. exists rest. now rewrite <- IHrest.
    + split; [reflexivity|]. now exists (c :: s).
Qed.

Lemma skipn_prefix (prefix rest : pystr) :
  skipn (List.length prefix) (prefix ++ rest) = rest.
Proof. induction prefix; simpl; auto. Qed.

(** A match anchored at the start shows the pattern at the start. *)
Lemma match_playlist_at_sound (s playlist_id : pystr) :
  match_playlist_at s = Some playlist_id ->
  exists rest,
    (s = str "playlist/" ++ playlist_id ++ rest \/
     s = str "playlist:" ++ playlist_id ++ rest) /\
    playlist_id <> [] /\ forallb is_alnum playlist_id = true.
Proof.
  unfold match_playlist_at. intros H.
  destruct (startswith (str "playlist/") s || startswith (str "playlist:") s) eqn:Hpre;
    [|discriminate].
  destruct (takewhile_split is_alnum (skipn 9 s)) as [Hall [rest Hrest]].
  destruct (takewhile is_alnum (skipn 9 s)) as [|c run] eqn:Hrun; [discriminate|].
  injection H as <-. exists rest.
  split; [|split; [discriminate | exact Hall]].
  apply orb_true_iff in Hpre. destruct Hpre as [Hp | Hp];
    apply startswith_app in Hp; destruct Hp as [tail ->]; [left | right];
    f_equal;
    [ change 9 with (List.length (str "playlist/")) in Hrest
    | change 9 with (List.length (str "playlist:")) in Hrest ];
    rewrite skipn_prefix in Hrest; exact Hrest.
Qed.

(** The pattern at the start gives a match anchored at the start. *)
Lemma match_playlist_at_complete (prefix playlist_id rest : pystr) :
  prefix = str "playlist/" \/ prefix = str "playlist:" ->
  playlist_id <> [] -> forallb is_alnum playlist_id = true ->
  match_playlist_at (prefix ++ playlist_id ++ rest) <> None.
Proof.
  intros Hprefix Hne Hall. unfold match_playlist_at.
  assert (Hstart : startswith (str "playlist/") (prefix ++ playlist_id ++ rest)
                   || startswith (str "playlist:") (prefix ++ playlist_id ++ rest) = true).
  { apply orb_true_iff. destruct Hprefix as [-> | ->]; [left | right];
      apply startswith_app; eauto. }
  rewrite Hstart.
  assert (Hskip : skipn 9 (prefix ++ playlist_id ++ rest) = playlist_id ++ rest).
  { destruct Hprefix as [-> | ->];
      [ change 9 with (List.length (str "playlist/"))
      | change 9 with (List.length (str "playlist:")) ];
      apply skipn_prefix. }
  rewrite Hskip. destruct playlist_id as [|c run]; [congruence|].
  simpl in *. apply andb_true_iff in Hall. destruct Hall as [Hc _].
  rewrite Hc. discriminate.
Qed.

Lemma re_search_playlist_sound (url playlist_id : pystr) :
  re_search_playlist url = Some playlist_id -> recognized_reference url.
Proof.
  induction url as [|c url IH].
  - intros H. vm_compute in H. discriminate.
  - simpl. destruct (match_playlist_at (c :: url)) eqn:Hm.
    + intros H. injection H as ->.
      destruct (match_playlist_at_sound _ Hm) as [rest [Hs Hid]].
      exists [], playlist_id, rest. exact (conj Hs Hid).
    + intros H. destruct (IH H) as [before [id_ [rest [Hs Hid]]]].
      exists (c :: before), id_, rest. split; [|exact Hid].
      destruct Hs as [-> | ->]; [left | right]; reflexivity.
Qed.

Lemma re_search_playlist_at_start (s : pystr) :
  match_playlist_at s <> None -> re_search_playlist s <> None.
Proof.
  intros Hm. destruct s; cbn [re_search_playlist];
    destruct (match_playlist_at _); congruence.
Qed.

Lemma re_search_playlist_complete (url : pystr) :
  recognized_reference url -> re_search_playlist url <> None.
Proof.
  intros [before [id_ [rest [Hs [Hne Hall]]]]].
  assert (Hat : exists prefix, (prefix = str "playlist/" \/ prefix = str "playlist:") /\
                               url = before ++ prefix ++ id_ ++ rest).
  { destruct Hs as [-> | ->]; eauto. }
  destruct Hat as [prefix [Hprefix ->]]. clear Hs.
  induction before as [|c before IH].
  - apply re_search_playlist_at_start.
    exact (match_playlist_at_complete rest Hprefix Hne Hall).
  - cbn [app re_search_playlist].
    destruct (match_playlist_at (c :: before ++ prefix ++ id_ ++ rest));
      [discriminate | exact IH].
Qed.

(** The search finds nothing exactly on the references that show no
    recognized pattern. *)
Lemma re_search_playlist_None (url : pystr) :
  re_search_playlist url = None <-> ~ recognized_reference url.
Proof.
  split.
  - intros Hnone Hrec. now apply (re_search_playlist_complete Hrec).
  - intros Hnot. destruct (re_search_playlist url) eqn:Hs; [|reflexivity].
    exfalso. apply Hnot. eapply re_search_playlist_sound; eauto.
Qed.

End ReferenceFacts.

(** ** Pagination and the conversion *)

Section ConversionFacts.
Context {World Cursor : Type} {E : External World Cursor}.

Implicit Types (m : machine World Cursor) (c : counters) (page : Paging Cursor).

Lemma catalog_next_value page m page' w :
  spotify_next page (world m) = (inr page', w) ->
  catalog_next page m = (Val page', record_call (CatalogNext page) w m).
Proof. intros H. unfold catalog_next, lift_result. now rewrite H. Qed.

(** The loop from any accumulated list: it appends the items of the pages
    that follow, asks for each of them once, and leaves the console alone. *)
Lemma fetch_all_pages_from w first rest w' :
  pages_from w first rest w' ->
  forall fuel acc m,
    world m = w -> List.length rest <= fuel ->
    fetch_all_pages fuel acc first m =
    (Val (acc ++ List.concat (map (@items Cursor) rest)),
     {| world := w';
        calls := calls m ++ map CatalogNext (removelast (first :: rest));
        console := console m |}).
Proof.
  induction 1 as [w page Hnext | w page cursor page' w' rest w'' Hnext Hserve Hrest IH];
    intros fuel acc m Hw Hfuel.
  - destruct fuel; simpl; rewrite Hnext; unfold ret; subst w;
      rewrite !app_nil_r; now destruct m.
  - destruct fuel as [|fuel]; [simpl in Hfuel; lia|].
    cbn [fetch_all_pages]. rewrite Hnext. unfold bind.
    subst w. rewrite (catalog_next_value _ _ Hserve).
    rewrite (IH fuel (acc ++ items page') (record_call (CatalogNext page) w' m))
      by (simpl in Hfuel; (reflexivity || lia)).
    f_equal.
    + cbn [map List.concat]. now rewrite <- app_assoc.
    + f_equal. change (removelast (page :: page' :: rest))
        with (page :: removelast (page' :: rest)).
      cbn [record_call calls map]. now rewrite <- app_assoc.
Qed.

Lemma last_nonempty {A} (a : A) (l : list A) (d d' : A) :
  last (a :: l) d = last (a :: l) d'.
Proof.
  revert a. induction l as [|b l IH]; intros a; [reflexivity|].
  change (last (a :: b :: l) d) with (last (b :: l) d).
  change (last (a :: b :: l) d') with (last (b :: l) d').
  apply IH.
Qed.

(** Every page before the last has a cursor; the last has none. *)
Lemma pages_from_cursors w first rest w' :
  pages_from w first rest w' ->
  Forall (fun page => next page <> None) (removelast (first :: rest)) /\
  next (last (first :: rest) first) = None.
Proof.
  induction 1 as [w page Hnext | w page cursor page' w' rest w'' Hnext Hserve Hrest IH].
  - split; [constructor | exact Hnext].
  - destruct IH as [IHall IHlast].
    change (removelast (page :: page' :: rest)) with (page :: removelast (page' :: rest)).
    change (last (page :: page' :: rest) page) with (last (page' :: rest) page).
    split.
    + constructor; [congruence | exact IHall].
    + rewrite <- IHlast. f_equal. apply last_nonempty.
Qed.

Lemma length_concat_items (pages : list (Paging Cursor)) :
  List.length (List.concat (map (@items Cursor) pages)) =
  list_sum (map (fun page => List.length (items page)) pages).
Proof.
  induction pages as [|page pages IH]; [reflexivity|].
  simpl. now rewrite length_app, IH.
Qed.

Lemma concat_items_nil (pages : list (Paging Cursor)) :
  Forall (fun page => items page = []) pages ->
  List.concat (map (@items Cursor) pages) = [].
Proof.
  induction 1 as [|page pages Hpage _ IH]; [reflexivity|].
  simpl. now rewrite Hpage, IH.
Qed.

(** C5: when the catalog serves the pages [first :: rest], the loop returns
    the concatenation of their items in page order, whose length is the sum
    of the pages' item counts; it asks for a next page once for every page
    that has a cursor and stops at the first page whose cursor is null; a
    playlist whose pages hold no items gives the empty list, not an error. *)
Theorem fetch_all_pages_concatenates w first rest w' fuel m :
  pages_from w first rest w' ->
  world m = w ->
  List.length rest <= fuel ->
  let pages := first :: rest in
  let all_tracks := List.concat (map (@items Cursor) pages) in
  fetch_all_pages fuel (items first) first m =
    (Val all_tracks,
     {| world := w';
        calls := calls m ++ map CatalogNext (removelast pages);
        console := console m |}) /\
  List.length all_tracks = list_sum (map (fun page => List.length (items page)) pages) /\
  Forall (fun page => next page <> None) (removelast pages) /\
  next (last pages first) = None /\
  (Forall (fun page => items page = []) pages ->
   fetch_all_pages fuel (items first) first m =
     (Val [],
      {| world := w';
         calls := calls m ++ map CatalogNext (removelast pages);
         console := console m |})).
Proof.
  intros Hpages Hw Hfuel pages all_tracks.
  pose proof (fetch_all_pages_from Hpages (fuel := fuel) (items first) m Hw Hfuel) as Hrun.
  destruct (pages_from_cursors Hpages) as [Hcursors Hlast].
  split; [exact Hrun|].
  split; [apply length_concat_items|].
  split; [exact Hcursors|].
  split; [exact Hlast|].
  intros Hempty. rewrite Hrun. f_equal. f_equal.
  apply (concat_items_nil Hempty).
Qed.

(** C9: on a reference that shows no recognized pattern the conversion takes
    the early exit: it prints the error line and nothing else, makes no call
    (no catalog request, no directory, no track) and leaves the world as it
    was. *)
Theorem unrecognized_reference_is_rejected url fuel output_dir config m :
  ~ recognized_reference url ->
  exists m',
    convert_spotify_playlist fuel url output_dir config m = (Val InvalidUrl, m') /\
    calls m' = calls m /\
    world m' = world m /\
    console m' = console m ++ [log_line (str "Invalid Spotify playlist URL") error].
Proof.
  intros Hnot. apply re_search_playlist_None in Hnot.
  unfold convert_spotify_playlist. rewrite Hnot.
  eexists. split; [reflexivity|]. repeat split.
Qed.

Lemma bind_Val_inv {A B} (k1 : M World Cursor A) (k2 : A -> M World Cursor B) m b m' :
  bind k1 k2 m = (Val b, m') ->
  exists a m1, k1 m = (Val a, m1) /\ k2 a m1 = (Val b, m').
Proof.
  unfold bind. destruct (k1 m) as [[a|e|] m1]; intros H; try discriminate. eauto.
Qed.

Lemma log_inv message l m u m' :
  log message l m = (Val u, m') -> m' = after_print m [log_line message l].
Proof. unfold log, console_print. congruence. Qed.


(** C1: in a conversion that reaches its summary, the counters of the summary
    are those of the loop over the aggregated track list, and they add up to
    the number of its non-null entries; the same holds after every
    iteration: the loop over a prefix of the list ends with counters that add
    up to the number of non-null entries of the prefix, and the rest of the
    run goes on from there. *)
Theorem counters_account_for_tracks fuel url output_dir config m c m' :
  convert_spotify_playlist fuel url output_dir config m = (Val (Summary c), m') ->
  exists playlist_id playlist m1 full_path m2 all_tracks m3 m4 m5,
    re_search_playlist url = Some playlist_id /\
    catalog_playlist playlist_id m = (Val playlist, m1) /\
    full_path = os_path_join output_dir (sanitize_filename (playlist_name playlist)) /\
    fetch_all_pages fuel (items (tracks playlist)) (tracks playlist) m2
      = (Val all_tracks, m3) /\
    process_tracks full_path config (List.length all_tracks) 1 all_tracks counters0 m4
      = (Val c, m5) /\
    m' = after_print m5 [log_line (summary_text c) info] /\
    successful_downloads c + skipped_downloads c + failed_downloads c
      = non_null_tracks all_tracks /\
    forall done todo,
      all_tracks = done ++ todo ->
      exists c1 m6,
        process_tracks full_path config (List.length all_tracks) 1 done counters0 m4
          = (Val c1, m6) /\
        successful_downloads c1 + skipped_downloads c1 + failed_downloads c1
          = non_null_tracks done /\
        process_tracks full_path config (List.length all_tracks)
                       (1 + List.length done) todo c1 m6
          = (Val c, m5).
Proof.
  unfold convert_spotify_playlist. intros H.
  destruct (re_search_playlist url) as [playlist_id|] eqn:Hsearch.
  2: { apply bind_Val_inv in H. destruct H as [u [m1 [_ H]]]. discriminate. }
  unfold try_except in H.
  match type of H with
  | match ?body m with _ => _ end = _ => destruct (body m) as [[o|e|] mb] eqn:Hbody
  end.
  2: { apply bind_Val_inv in H. destruct H as [u [m1 [_ H]]]. discriminate. }
  2: discriminate.
  injection H as -> ->.
  apply bind_Val_inv in Hbody. destruct Hbody as [playlist [m1 [Hplaylist Hbody]]].
  apply bind_Val_inv in Hbody. destruct Hbody as [u1 [m1' [_ Hbody]]].
  apply bind_Val_inv in Hbody. destruct Hbody as [u2 [m1'' [_ Hbody]]].
  apply bind_Val_inv in Hbody. destruct Hbody as [u3 [m2 [_ Hbody]]].
  apply bind_Val_inv in Hbody. destruct Hbody as [all_tracks [m3 [Hfetch Hbody]]].
  apply bind_Val_inv in Hbody. destruct Hbody as [u4 [m4 [_ Hbody]]].
  apply bind_Val_inv in Hbody. destruct Hbody as [c' [m5 [Hloop Hbody]]].
  apply bind_Val_inv in Hbody. destruct Hbody as [u5 [m6 [Hlog Hbody]]].
  apply log_inv in Hlog. unfold ret in Hbody. injection Hbody as -> ->.
  exists playlist_id, playlist, m1,
    (os_path_join output_dir (sanitize_filename (playlist_name playlist))),
    m2, all_tracks, m3, m4, m5.
  repeat (split; [first [reflexivity | eassumption]|]).
  destruct (process_tracks_returns
              (os_path_join output_dir (sanitize_filename (playlist_name playlist)))
              config (List.length all_tracks) all_tracks 1 counters0 m4)
    as [c2 [m7 [Hrun [Hsum _]]]].
  rewrite Hloop in Hrun. injection Hrun as <- <-.
  split; [exact Hsum|].
  intros done todo Hsplit.
  destruct (process_tracks_returns
              (os_path_join output_dir (sanitize_filename (playlist_name playlist)))
              config (List.length all_tracks) done 1 counters0 m4)
    as [c1 [m6 [Hdone [Hsum1 _]]]].
  exists c1, m6. split; [exact Hdone|]. split; [exact Hsum1|].
  rewrite <- (process_tracks_app _ _ _ _ todo _ _ _ Hdone), <- Hsplit. exact Hloop.
Qed.




End ConversionFacts.

(** ** The properties on the Road Trip playlist *)

Section DemoRuns.
Import Demo.

Lemma counters_account_for_tracks_witness :
  convert_spotify_playlist 5 url (str "/music") config (start [])
    = (Val (Summary road_trip_counters), road_trip_end) /\
  exists playlist_id playlist m1 full_path m2 all_tracks m3 m4 m5,
    re_search_playlist url = Some playlist_id /\
    catalog_playlist playlist_id (start []) = (Val playlist, m1) /\
    full_path = os_path_join (str "/music") (sanitize_filename (playlist_name playlist)) /\
    fetch_all_pages 5 (items (tracks playlist)) (tracks playlist) m2
      = (Val all_tracks, m3) /\
    process_tracks full_path config (List.length all_tracks) 1 all_tracks counters0 m4
      = (Val road_trip_counters, m5) /\
    road_trip_end = after_print m5 [log_line (summary_text road_trip_counters) info] /\
    successful_downloads road_trip_counters + skipped_downloads road_trip_counters
      + failed_downloads road_trip_counters
      = non_null_tracks all_tracks /\
    forall done todo,
      all_tracks = done ++ todo ->
      exists c1 m6,
        process_tracks full_path config (List.length all_tracks) 1 done counters0 m4
          = (Val c1, m6) /\
        successful_downloads c1 + skipped_downloads c1 + failed_downloads c1
          = non_null_tracks done /\
        process_tracks full_path config (List.length all_tracks)
                       (1 + List.length done) todo c1 m6
          = (Val road_trip_counters, m5).
Proof.
  assert (Hrun : convert_spotify_playlist 5 url (str "/music") config (start [])
                 = (Val (Summary road_trip_counters), road_trip_end))
    by (vm_compute; reflexivity).
  split; [exact Hrun|].
  exact (counters_account_for_tracks 5 url (str "/music") config (start []) Hrun).
Defined.


Lemma fetch_all_pages_concatenates_witness :
  pages_from [] page1 [page2] [] /\
  world (start []) = [] /\
  List.length [page2] <= 5 /\
  fetch_all_pages 5 (items page1) page1 (start []) =
    (Val [{| item_track := Some song_one |}; {| item_track := None |};
          {| item_track := Some song_two |}],
     {| world := []; calls := [CatalogNext page1]; console := [] |}).
Proof.
  assert (Hpages : pages_from [] page1 [page2] []).
  { eapply pages_more with (cursor := 1); [reflexivity | reflexivity |].
    apply pages_last. reflexivity. }
  assert (Hfuel : List.length [page2] <= 5) by (simpl; lia).
  split; [exact Hpages|]. split; [reflexivity|]. split; [exact Hfuel|].
  exact (proj1 (@fetch_all_pages_concatenates World Cursor demo [] page1 [page2] [] 5
                  (start []) Hpages eq_refl Hfuel)).
Defined.


Lemma unrecognized_reference_is_rejected_witness :
  ~ recognized_reference album_url /\
  exists m',
    convert_spotify_playlist 5 album_url (str "/music") config (start [])
      = (Val InvalidUrl, m') /\
    calls m' = calls (start []) /\
    world m' = world (start []) /\
    console m' = console (start [])
                 ++ [log_line (str "Invalid Spotify playlist URL") error].
Proof.
  assert (Hnot : ~ recognized_reference album_url)
    by (apply re_search_playlist_None; vm_compute; reflexivity).
  split; [exact Hnot|].
  exact (unrecognized_reference_is_rejected 5 (str "/music") config (start []) Hnot).
Defined.

Example road_trip_reference :
  re_search_playlist url = Some playlist_id /\
  re_search_playlist (str "spotify:playlist:37i9dQZF1DXcBWIGoYBM5M") = Some playlist_id /\
  re_search_playlist (str "playlist/?si=1") = None.
Proof. repeat split; vm_compute; reflexivity. Qed.

(** The second run of the scenario: with both files there, both tracks are
    skipped and nothing is downloaded. *)
Example road_trip_second_run :
  fst (convert_spotify_playlist 5 url (str "/music") config
         (start [song_one_file; str "/music/Road Trip/Artist B - Song Two.mp3"]))
  = Val (Summary {| successful_downloads := 0; skipped_downloads := 2;
                    failed_downloads := 0; advanced := 2 |}).
Proof. vm_compute. reflexivity. Qed.

(** A playlist with no tracks converts to a summary of zeros. *)
Example quiet_playlist_converts :
  fst (convert_spotify_playlist 0 (str "spotify:playlist:0qu1et0") (str "/music") config
         (start []))
  = Val (Summary counters0).
Proof. vm_compute. reflexivity. Qed.

End DemoRuns.

(** * Further properties *)

(** ** The sanitizer's fixed points and collisions *)

(** X1: a name comes out of the sanitizer unchanged exactly when it holds no
    reserved character. *)
Theorem sanitize_filename_fixed_iff (name : pystr) :
  sanitize_filename name = name <-> Forall (fun c => ~ In c reserved_chars) name.
Proof.
  split.
  - intros Hfix. rewrite <- Hfix.
    eapply Forall_impl; [|apply sanitize_filename_clean].
    intros c Hc. now apply is_reserved_not_In.
  - intros Hclean. apply sanitize_filename_fixed.
    eapply Forall_impl; [|exact Hclean].
    intros c Hc. now apply is_reserved_not_In.
Qed.

Lemma reserved_or_underscore (c : char) :
  In c (95%N :: reserved_chars) <-> (if is_reserved c then 95%N else c) = 95%N.
Proof.
  destruct (is_reserved c) eqn:Hc.
  - split; [reflexivity|]. intros _. right. now apply is_reserved_In.
  - split.
    + intros [H | H]; [now symmetry|].
      apply is_reserved_In in H. congruence.
    + intros ->. now left.
Qed.

Lemma same_after_sanitize_iff (a b : char) :
  same_after_sanitize a b <->
  (if is_reserved a then 95%N else a) = (if is_reserved b then 95%N else b).
Proof.
  unfold same_after_sanitize. split.
  - intros [-> | [Ha Hb]]; [reflexivity|].
    apply reserved_or_underscore in Ha, Hb. congruence.
  - intros Heq.
    destruct (is_reserved a) eqn:Ha, (is_reserved b) eqn:Hb.
    + right. split; right; now apply is_reserved_In.
    + right. split; [right; now apply is_reserved_In | left; exact Heq].
    + right. split; [left; now symmetry | right; now apply is_reserved_In].
    + now left.
Qed.

(** X2: two names get the same sanitized name exactly when they have the
    same length and, position by position, their characters are equal or
    are both among the reserved characters and the underscore. *)
Theorem sanitize_filename_collision (a b : pystr) :
  sanitize_filename a = sanitize_filename b <-> Forall2 same_after_sanitize a b.
Proof.
  revert b. induction a as [|x a IH]; intros [|y b].
  - split; [constructor | reflexivity].
  - rewrite sanitize_filename_cons. split; [discriminate | inversion 1].
  - rewrite sanitize_filename_cons. split; [discriminate | inversion 1].
  - rewrite !sanitize_filename_cons. split.
    + intros Heq. injection Heq as Hhead Htail. constructor.
      * now apply same_after_sanitize_iff.
      * now apply IH.
    + intros Hall. inversion Hall as [|? ? ? ? Hhead Htail]; subst.
      apply same_after_sanitize_iff in Hhead. apply IH in Htail. congruence.
Qed.

Example sanitize_collides :
  sanitize_filename (str "AC/DC - T.N.T") = sanitize_filename (str "AC_DC - T.N.T") /\
  sanitize_filename (str "A - What?") = sanitize_filename (str "A - What*").
Proof. split; reflexivity. Qed.

(** ** What the reference pattern extracts *)

Section ExtractionFacts.

Lemma takewhile_stops (p : char -> bool) (s : pystr) :
  exists rest,
    s = takewhile p s ++ rest /\
    match rest with [] => True | c :: _ => p c = false end.
Proof.
  induction s as [|c s [rest [IHs IHstop]]]; simpl.
  - now exists [].
  - destruct (p c) eqn:Hc.
    + exists rest. split; [simpl; now rewrite <- IHs | exact IHstop].
    + exists (c :: s). split; [reflexivity | exact Hc].
Qed.

Lemma takewhile_run (p : char -> bool) (run rest : pystr) :
  forallb p run = true ->
  match rest with [] => True | c :: _ => p c = false end ->
  takewhile p (run ++ rest) = run.
Proof.
  intros Hrun Hstop. induction run as [|c run IH]; simpl in *.
  - destruct rest as [|c rest]; simpl; [reflexivity | now rewrite Hstop].
  - apply andb_true_iff in Hrun. destruct Hrun as [Hc Hrun].
    rewrite Hc, IH by assumption. reflexivity.
Qed.

Lemma match_playlist_at_run (s playlist_id : pystr) :
  match_playlist_at s = Some playlist_id ->
  exists prefix rest,
    s = prefix ++ playlist_id ++ rest /\
    (prefix = str "playlist/" \/ prefix = str "playlist:") /\
    playlist_id <> [] /\ forallb is_alnum playlist_id = true /\ ends_run rest.
Proof.
  unfold match_playlist_at. intros H.
  destruct (startswith (str "playlist/") s || startswith (str "playlist:") s) eqn:Hpre;
    [|discriminate].
  destruct (takewhile_split is_alnum (skipn 9 s)) as [Hall _].
  destruct (takewhile_stops is_alnum (skipn 9 s)) as [rest [Hrest Hstop]].
  destruct (takewhile is_alnum (skipn 9 s)) as [|c run] eqn:Hrun; [discriminate|].
  injection H as <-.
  apply orb_true_iff in Hpre. destruct Hpre as [Hp | Hp];
    apply startswith_app in Hp; destruct Hp as [tail ->];
    [ exists (str "playlist/"), rest; change 9 with (List.length (str "playlist/")) in Hrest
    | exists (str "playlist:"), rest; change 9 with (List.length (str "playlist:")) in Hrest ];
    rewrite skipn_prefix in Hrest; subst tail;
    (split; [reflexivity|]);
    (split; [auto|]); (split; [discriminate|]); (split; assumption).
Qed.

Lemma match_playlist_at_exact (prefix playlist_id rest : pystr) :
  prefix = str "playlist/" \/ prefix = str "playlist:" ->
  playlist_id <> [] -> forallb is_alnum playlist_id = true -> ends_run rest ->
  match_playlist_at (prefix ++ playlist_id ++ rest) = Some playlist_id.
Proof.
  intros Hprefix Hne Hall Hstop. unfold match_playlist_at.
  assert (Hstart : startswith (str "playlist/") (prefix ++ playlist_id ++ rest)
                   || startswith (str "playlist:") (prefix ++ playlist_id ++ rest) = true).
  { apply orb_true_iff. destruct Hprefix as [-> | ->]; [left | right];
      apply startswith_app; eauto. }
  rewrite Hstart.
  assert (Hskip : skipn 9 (prefix ++ playlist_id ++ rest) = playlist_id ++ rest).
  { destruct Hprefix as [-> | ->];
      [ change 9 with (List.length (str "playlist/"))
      | change 9 with (List.length (str "playlist:")) ];
      apply skipn_prefix. }
  rewrite Hskip, (takewhile_run is_alnum playlist_id rest Hall Hstop).
  destruct playlist_id; [congruence | reflexivity].
Qed.

(** The search returns the match at the first position that has one. *)
Lemma re_search_playlist_leftmost (url playlist_id : pystr) :
  re_search_playlist url = Some playlist_id ->
  exists before s,
    url = before ++ s /\
    match_playlist_at s = Some playlist_id /\
    forall k, k < List.length before -> match_playlist_at (skipn k url) = None.
Proof.
  induction url as [|c url IH].
  - intros H. vm_compute in H. discriminate.
  - cbn [re_search_playlist]. destruct (match_playlist_at (c :: url)) eqn:Hm.
    + intros H. injection H as ->. exists [], (c :: url).
      split; [reflexivity|]. split; [exact Hm|]. intros k Hk. simpl in Hk. lia.
    + intros H. destruct (IH H) as [before [s [-> [Hs Hleft]]]].
      exists (c :: before), s. split; [reflexivity|]. split; [exact Hs|].
      intros [|k] Hk; [exact Hm|]. simpl in Hk. apply Hleft. lia.
Qed.

Lemma re_search_playlist_here (s playlist_id : pystr) :
  match_playlist_at s = Some playlist_id -> re_search_playlist s = Some playlist_id.
Proof. intros Hm. destruct s; cbn [re_search_playlist]; now rewrite Hm. Qed.

Lemma re_search_playlist_skip (c : char) (s : pystr) :
  match_playlist_at (c :: s) = None ->
  re_search_playlist (c :: s) = re_search_playlist s.
Proof. intros Hm. cbn [re_search_playlist]. now rewrite Hm. Qed.

(** X3: the identifier the search returns stands in the reference right
    after [playlist/] or [playlist:]; it is the whole run of alphanumerics
    there (it stops at the end of the text or at the first other character),
    and no occurrence of the pattern starts further to the left. *)
Theorem re_search_playlist_extracts (url playlist_id : pystr) :
  re_search_playlist url = Some playlist_id ->
  exists before prefix rest,
    url = before ++ prefix ++ playlist_id ++ rest /\
    (prefix = str "playlist/" \/ prefix = str "playlist:") /\
    playlist_id <> [] /\
    forallb is_alnum playlist_id = true /\
    ends_run rest /\
    forall before' prefix' id' rest',
      url = before' ++ prefix' ++ id' ++ rest' ->
      prefix' = str "playlist/" \/ prefix' = str "playlist:" ->
      id' <> [] -> forallb is_alnum id' = true ->
      List.length before <= List.length before'.
Proof.
  intros Hsearch.
  destruct (re_search_playlist_leftmost _ Hsearch) as [before [s [Hurl [Hs Hleft]]]].
  destruct (match_playlist_at_run _ Hs) as [prefix [rest [-> [Hprefix [Hne [Hall Hstop]]]]]].
  exists before, prefix, rest.
  repeat (split; [assumption|]).
  intros before' prefix' id' rest' Hurl' Hprefix' Hne' Hall'.
  destruct (Nat.le_gt_cases (List.length before) (List.length before')) as [Hle | Hlt];
    [exact Hle | exfalso].
  specialize (Hleft _ Hlt). rewrite Hurl', skipn_prefix in Hleft.
  now apply (match_playlist_at_complete rest' Hprefix' Hne' Hall').
Qed.

(** X4: from a share link and from a URI the search returns the identifier
    itself, whatever follows it (a query string, nothing). *)
Theorem re_search_playlist_share_forms (playlist_id tail : pystr) :
  playlist_id <> [] ->
  forallb is_alnum playlist_id = true ->
  ends_run tail ->
  re_search_playlist (str "https://open.spotify.com/playlist/" ++ playlist_id ++ tail)
    = Some playlist_id /\
  re_search_playlist (str "spotify:playlist:" ++ playlist_id ++ tail)
    = Some playlist_id.
Proof.
  intros Hne Hall Hstop.
  assert (Hslash : re_search_playlist (str "playlist/" ++ playlist_id ++ tail)
                   = Some playlist_id)
    by (apply re_search_playlist_here, match_playlist_at_exact; auto).
  assert (Hcolon : re_search_playlist (str "playlist:" ++ playlist_id ++ tail)
                   = Some playlist_id)
    by (apply re_search_playlist_here, match_playlist_at_exact; auto).
  split.
  - change (str "https://open.spotify.com/playlist/")
      with (str "https://open.spotify.com/" ++ str "playlist/").
    rewrite <- app_assoc.
    let v := eval vm_compute in (str "https://open.spotify.com/") in
    change (str "https://open.spotify.com/") with v.
    cbn [app]. repeat (rewrite re_search_playlist_skip by reflexivity). exact Hslash.
  - change (str "spotify:playlist:") with (str "spotify:" ++ str "playlist:").
    rewrite <- app_assoc.
    let v := eval vm_compute in (str "spotify:") in
    change (str "spotify:") with v.
    cbn [app]. repeat (rewrite re_search_playlist_skip by reflexivity). exact Hcolon.
Qed.

End ExtractionFacts.

(** ** More on the Media Fetcher *)

Section FetcherFacts.
Context {World Cursor : Type} {E : External World Cursor}.

Implicit Types (m : machine World Cursor).

(** The query as yt-dlp receives it. *)
Lemma download_command_last query output_path is_video config :
  last (download_command query output_path is_video config) [] =
  if is_url query then query
  else str "ytsearch1:" ++ query ++
       (if is_video then str " official video" else str " official audio").
Proof.
  unfold download_command.
  destruct is_video, (is_url query); rewrite last_last; reflexivity.
Qed.

Lemma download_command_front query output_path is_video config :
  removelast (download_command query output_path is_video config) =
  [str "yt-dlp"; str "-o"; os_path_join output_path (str "%(title)s.%(ext)s");
   str "--no-warnings"] ++
  (if is_video then
     [str "-f"; str "bestvideo[ext=mp4]+bestaudio[ext=m4a]/best";
      str "--merge-output-format"; video_format config]
   else
     [str "-x"; str "--audio-format"; format config;
      str "--audio-quality"; audio_quality config;
      str "--embed-thumbnail"; str "--add-metadata";
      str "--embed-metadata"; str "--prefer-ffmpeg"]).
Proof.
  unfold download_command.
  destruct is_video, (is_url query); rewrite removelast_last; reflexivity.
Qed.

Lemma is_url_no_dash query : is_url query = true -> startswith (str "-") query = false.
Proof.
  unfold is_url. intros H. apply orb_true_iff in H.
  destruct H as [H | H]; apply startswith_app in H; destruct H as [rest ->]; reflexivity.
Qed.

(** X5: whatever the user's text, it reaches yt-dlp as the last argument
    only: verbatim when it starts with [http://] or [https://], and
    otherwise wrapped as a first-result search; the arguments before it do
    not depend on the text, and the last argument never starts with a dash,
    so the text is never read as an option. *)
Theorem download_command_query_is_last query other output_path is_video config :
  last (download_command query output_path is_video config) [] =
    (if is_url query then query
     else str "ytsearch1:" ++ query ++
          (if is_video then str " official video" else str " official audio")) /\
  removelast (download_command query output_path is_video config) =
    removelast (download_command other output_path is_video config) /\
  startswith (str "-") (last (download_command query output_path is_video config) []) = false.
Proof.
  split; [apply download_command_last|].
  split; [now rewrite !download_command_front|].
  rewrite download_command_last.
  destruct (is_url query) eqn:Hurl; [now apply is_url_no_dash | reflexivity].
Qed.


End FetcherFacts.

(** ** More on the loop over the tracks *)

Section LoopFacts.
Context {World Cursor : Type} {E : External World Cursor}.

Implicit Types (m : machine World Cursor) (c : counters).










End LoopFacts.

(** ** How a conversion ends *)

Section EndingFacts.
Context {World Cursor : Type} {E : External World Cursor}.

Implicit Types (m : machine World Cursor) (c : counters) (page : Paging Cursor).









(** X14: the pagination loop has no bound of its own: against a catalog
    whose every page carries a cursor it never comes to an end, whatever the
    number of iterations allowed. *)
Theorem fetch_all_pages_unbounded (serving : World -> Paging Cursor -> Prop) :
  (forall w page,
     serving w page ->
     exists cursor page' w',
       next page = Some cursor /\
       spotify_next page w = (inr page', w') /\
       serving w' page') ->
  forall fuel acc page m,
    serving (world m) page ->
    fst (fetch_all_pages fuel acc page m) = Diverge.
Proof.
  intros Hserving. induction fuel as [|fuel IH]; intros acc page m Hhere;
    destruct (Hserving _ _ Hhere) as [cursor [page' [w' [Hnext [Hserve Hthere]]]]];
    cbn [fetch_all_pages]; rewrite Hnext.
  - reflexivity.
  - unfold bind. rewrite (catalog_next_value _ _ Hserve). apply IH. exact Hthere.
Qed.

End EndingFacts.

(** ** Credentials, start-up checks and single downloads *)

Section StartupFacts.
Context {World Cursor Client : Type} {E : External World Cursor} {H : Host World Client}.

Implicit Types (m : machine World Cursor) (config : ConfigParser).

Lemma config_get_value config section key value m :
  config section key = inr value ->
  config_get config section key m = (Val value, m).
Proof. intros Hget. unfold config_get. now rewrite Hget. Qed.



(** X15: with a client id or a client secret that is empty the program makes
    no client: it prints that the credentials are not set, returns [None],
    and leaves the world and the trace as they were (spotipy is not
    touched). *)
Theorem unconfigured_client_is_refused config m client_id client_secret :
  config (str "Spotify") (str "client_id") = inr client_id ->
  config (str "Spotify") (str "client_secret") = inr client_secret ->
  client_id = [] \/ client_secret = [] ->
  initialize_spotify_client config m =
  (Val None,
   after_print m
     [log_line (str "Spotify API credentials not set. Configure them first.") error]).
Proof.
  intros Hid Hsecret Hempty. unfold initialize_spotify_client, try_except.
  unfold bind at 1. rewrite (config_get_value _ _ _ m Hid).
  unfold bind at 1. rewrite (config_get_value _ _ _ m Hsecret).
  assert (Hcheck : is_empty client_id || is_empty client_secret = true).
  { apply orb_true_iff. destruct Hempty as [-> | ->]; [left | right]; reflexivity. }
  rewrite Hcheck. reflexivity.
Qed.


(** X17: the start-up check passes exactly when yt-dlp runs and spotipy can
    be imported; a missing FFmpeg never fails it and only prints a warning;
    each missing dependency gets its line of advice, and with everything
    there nothing is printed. *)
Theorem check_dependencies_result m r1 w1 r2 w2 r3 w3 :
  subprocess_check [str "yt-dlp"; str "--version"] (world m) = (r1, w1) ->
  subprocess_check [str "ffmpeg"; str "-version"] w1 = (r2, w2) ->
  import_spotipy w2 = (r3, w3) ->
  (forall e, r1 <> ProbeRaised e) ->
  (forall e, r2 <> ProbeRaised e) ->
  (forall e, r3 <> ImportRaised e) ->
  exists m',
    check_dependencies m = (Val (probe_ok r1 && import_ok r3), m') /\
    world m' = w3 /\
    (probe_ok r2 = false ->
     In (log_line (str "FFmpeg not found - some features may not work properly") warning)
        (console m')) /\
    (probe_ok r1 = false -> In missing_yt_dlp (console m')) /\
    (import_ok r3 = false -> In missing_spotipy (console m')) /\
    (probe_ok r1 && probe_ok r2 && import_ok r3 = true -> console m' = console m).
Proof.
  intros H1 H2 H3 Hr1 Hr2 Hr3.
  unfold check_dependencies.
  unfold bind at 1. unfold probe at 1. rewrite H1.
  destruct r1 as [| | |e1]; try (exfalso; eapply Hr1; reflexivity);
    cbn [probe_ok];
    unfold bind at 1; unfold probe at 1; cbn [world record_call]; rewrite H2;
    (destruct r2 as [| | |e2]; try (exfalso; eapply Hr2; reflexivity));
    cbn [probe_ok];
    unfold bind at 1; unfold log, console_print, ret;
    unfold bind at 1; unfold try_import; cbn [world record_call after_print]; rewrite H3;
    (destruct r3 as [| |e3]; try (exfalso; eapply Hr3; reflexivity));
    cbn [import_ok app];
    unfold bind, console_print, ret; cbn;
    eexists; (split; [reflexivity|]); cbn;
    (split; [reflexivity|]);
    repeat split; intros; try discriminate; try reflexivity;
    rewrite ?in_app_iff; cbn; tauto.
Qed.





(** X18: when the answer to the first prompt is empty once stripped,
    [download_single] prints that no input was provided and returns: it asks
    nothing more, makes no directory and runs no process. *)
Theorem download_single_empty_input config m answer w :
  input_ (str "Enter YouTube URL or search query: ") (world m) = (inr answer, w) ->
  str_strip answer = [] ->
  download_single config m =
  (Val tt, after_print (with_world w m) [log_line (str "No input provided") error]).
Proof.
  intros Hask Hempty. unfold download_single.
  unfold bind at 1. unfold input. rewrite Hask, Hempty. reflexivity.
Qed.


End StartupFacts.

(** ** A conversion that goes through *)

Section CompletionFacts.
Context {World Cursor : Type} {E : External World Cursor}.

Implicit Types (m : machine World Cursor).



End CompletionFacts.

(** ** The further properties on concrete runs *)

Section RoadTripRuns.

#[local] Existing Instance Demo.demo.

Lemma re_search_playlist_extracts_witness :
  re_search_playlist Demo.url = Some Demo.playlist_id /\
  exists before prefix rest,
    Demo.url = before ++ prefix ++ Demo.playlist_id ++ rest /\
    (prefix = str "playlist/" \/ prefix = str "playlist:") /\
    ends_run rest.
Proof.
  assert (Hsearch : re_search_playlist Demo.url = Some Demo.playlist_id)
    by (vm_compute; reflexivity).
  split; [exact Hsearch|].
  destruct (re_search_playlist_extracts Demo.url Hsearch)
    as [before [prefix [rest [Hurl [Hprefix [_ [_ [Hstop _]]]]]]]].
  exists before, prefix, rest. auto.
Defined.

Lemma re_search_playlist_share_forms_witness :
  Demo.playlist_id <> [] /\
  forallb is_alnum Demo.playlist_id = true /\
  ends_run (str "?si=abc") /\
  re_search_playlist
    (str "https://open.spotify.com/playlist/" ++ Demo.playlist_id ++ str "?si=abc")
  = Some Demo.playlist_id.
Proof.
  assert (Hne : Demo.playlist_id <> []) by (vm_compute; discriminate).
  assert (Hall : forallb is_alnum Demo.playlist_id = true) by (vm_compute; reflexivity).
  assert (Hstop : ends_run (str "?si=abc")) by (vm_compute; reflexivity).
  split; [exact Hne|]. split; [exact Hall|]. split; [exact Hstop|].
  exact (proj1 (re_search_playlist_share_forms (str "?si=abc") Hne Hall Hstop)).
Defined.





End RoadTripRuns.

Section EndlessRuns.

#[local] Existing Instance Endless.endless.

Lemma fetch_all_pages_unbounded_witness :
  (forall (w : unit) (page : Paging unit),
     page = Endless.page ->
     exists cursor page' w',
       next page = Some cursor /\
       spotify_next page w = (inr page', w') /\
       page' = Endless.page) /\
  fst (fetch_all_pages 1000 [] Endless.page
         {| world := tt; calls := []; console := [] |}) = Diverge.
Proof.
  assert (Hserving : forall (w : unit) (page : Paging unit),
     page = Endless.page ->
     exists cursor page' w',
       next page = Some cursor /\
       spotify_next page w = (inr page', w') /\
       page' = Endless.page).
  { intros w page ->. exists tt, Endless.page, w. repeat split. }
  split; [exact Hserving|].
  exact (fetch_all_pages_unbounded (fun _ page => page = Endless.page) Hserving
           1000 [] Endless.page {| world := tt; calls := []; console := [] |} eq_refl).
Defined.

End EndlessRuns.

Section DeskRuns.

#[local] Existing Instance Desk.desk.
#[local] Existing Instance Desk.host.

Lemma unconfigured_client_is_refused_witness :
  Desk.defaults (str "Spotify") (str "client_id") = inr [] /\
  Desk.defaults (str "Spotify") (str "client_secret") = inr [] /\
(([] : pystr) = [] \/ ([] : pystr) = []) /\
  fst (initialize_spotify_client (Client := unit) Desk.defaults (Desk.start (Desk.ready [])))
  = Val None.
Proof.
  assert (Hid : Desk.defaults (str "Spotify") (str "client_id") = inr [])
    by (vm_compute; reflexivity).
  assert (Hsecret : Desk.defaults (str "Spotify") (str "client_secret") = inr [])
    by (vm_compute; reflexivity).
  split; [exact Hid|]. split; [exact Hsecret|]. split; [now left|].
  rewrite (unconfigured_client_is_refused (H := Desk.host) Desk.defaults
             (Desk.start (Desk.ready [])) Hid Hsecret (or_introl eq_refl)).
  reflexivity.
Defined.

Lemma check_dependencies_result_witness :
  subprocess_check [str "yt-dlp"; str "--version"] (world (Desk.start Desk.bare))
  = (FileNotFoundError, Desk.bare) /\
  subprocess_check [str "ffmpeg"; str "-version"] Desk.bare = (FileNotFoundError, Desk.bare) /\
  import_spotipy Desk.bare = (Imported, Desk.bare) /\
  exists m',
    check_dependencies (Client := unit) (Desk.start Desk.bare) = (Val false, m') /\
    In missing_yt_dlp (console m').
Proof.
  assert (H1 : subprocess_check [str "yt-dlp"; str "--version"] (world (Desk.start Desk.bare))
               = (FileNotFoundError, Desk.bare)) by (vm_compute; reflexivity).
  assert (H2 : subprocess_check [str "ffmpeg"; str "-version"] Desk.bare
               = (FileNotFoundError, Desk.bare)) by (vm_compute; reflexivity).
  assert (H3 : import_spotipy Desk.bare = (Imported, Desk.bare)) by (vm_compute; reflexivity).
  split; [exact H1|]. split; [exact H2|]. split; [exact H3|].
  destruct (check_dependencies_result (Client := unit) (Desk.start Desk.bare) H1 H2 H3
              (fun e Heq => eq_ind FileNotFoundError
                 (fun r => match r with ProbeRaised _ => False | _ => True end) I _ Heq)
              (fun e Heq => eq_ind FileNotFoundError
                 (fun r => match r with ProbeRaised _ => False | _ => True end) I _ Heq)
              (fun e Heq => eq_ind Imported
                 (fun r => match r with ImportRaised _ => False | _ => True end) I _ Heq))
    as [m' [Hrun [_ [_ [Hyt _]]]]].
  exists m'. split; [exact Hrun | exact (Hyt eq_refl)].
Defined.

Lemma download_single_empty_input_witness :
  input_ (str "Enter YouTube URL or search query: ")
         (world (Desk.start (Desk.ready [str "   "])))
  = (inr (str "   "), Desk.ready []) /\
  str_strip (str "   ") = [] /\
  fst (download_single (Client := unit) Desk.defaults (Desk.start (Desk.ready [str "   "])))
  = Val tt.
Proof.
  assert (Hask : input_ (str "Enter YouTube URL or search query: ")
                        (world (Desk.start (Desk.ready [str "   "])))
                 = (inr (str "   "), Desk.ready [])) by (vm_compute; reflexivity).
  assert (Hempty : str_strip (str "   ") = []) by (vm_compute; reflexivity).
  split; [exact Hask|]. split; [exact Hempty|].
  rewrite (download_single_empty_input (Client := unit) Desk.defaults
             (Desk.start (Desk.ready [str "   "])) Hask Hempty).
  reflexivity.
Defined.


Example desk_start_up :
  fst (check_dependencies (Client := unit) (Desk.start (Desk.ready []))) = Val true /\
  console (snd (check_dependencies (Client := unit) (Desk.start (Desk.ready [])))) = [].
Proof. split; vm_compute; reflexivity. Qed.

Example desk_client :
  fst (initialize_spotify_client (Client := unit) Desk.configured
         (Desk.start (Desk.ready []))) = Val (Some tt).
Proof. vm_compute. reflexivity. Qed.

End DeskRuns.
